(** * Pulser devices: the array validator of [PasqalDevice] and the [Chadoq2] device

    A shallow embedding of [pulser/devices.py].

    - Python exceptions are an error monad: a call either returns a value
      ([Ok]) or raises ([Raise]).
    - Numbers (coordinates and the two distance limits) are exact rationals;
      the rounding of float64 is not modelled.  A Euclidean length is the
      square root of a rational: it is represented by its radicand, and
      compared with a rational through squares.  Section [Lengths_as_reals]
      relates these comparisons to [sqrt] on the real numbers.
    - A dict of qubits is an association list in insertion order; the dict of
      channels, of which only the set of values is read, is a [gmap]. *)

From Stdlib Require Import ZArith QArith Qreduction Reals Qreals Lra Lia.
From Stdlib Require Import Ascii String.
From stdpp Require Import gmap strings list pretty.

Local Open Scope Z_scope.

(** ** Exceptions *)

Inductive exn : Type :=
  | TypeError (msg : string)
  | ValueError (msg : string)
  | AxisError (msg : string).   (* numpy.AxisError *)

Inductive result (A : Type) : Type :=
  | Ok (a : A)
  | Raise (e : exn).

Arguments Ok {A} a.
Arguments Raise {A} e.

#[global] Instance result_ret : MRet result := fun A a => Ok a.
#[global] Instance result_bind : MBind result := fun A B k r =>
  match r with
  | Ok a => k a
  | Raise e => Raise e
  end.

(** [if cond: raise e] *)
Definition raise_if (cond : bool) (e : exn) : result unit :=
  if cond then Raise e else Ok tt.

(** ** Numbers and their rendering *)

Definition Qltb (a b : Q) : bool :=
  (Qnum a * Zpos (Qden b) <? Qnum b * Zpos (Qden a))%Z.

(** [str] of an int. *)
Definition str_int (z : Z) : string := pretty z.

(** [str] of an exact rational: an integral value prints as the int does,
    any other one as numerator/denominator in lowest terms. *)
Definition str (x : Q) : string :=
  let r := Qred x in
  match Qden r with
  | xH => str_int (Qnum r)
  | d => str_int (Qnum r) +:+ "/" +:+ str_int (Zpos d)
  end.

(** [template.format(arg)] for a template with one replacement field. *)
Fixpoint format (template arg : string) : string :=
  match template with
  | EmptyString => EmptyString
  | String "{"%char (String "}"%char rest) => arg +:+ rest
  | String c rest => String c (format rest arg)
  end.

(** [needle in haystack] on strings. *)
Fixpoint contains (needle haystack : string) : bool :=
  String.prefix needle haystack
  || match haystack with
     | EmptyString => false
     | String _ rest => contains needle rest
     end.

(** ** Euclidean lengths *)

(** The value [sqrt radicand], for a radicand that is a sum of squares. *)
Record root : Type := Sqrt { radicand : Q }.

Definition root_ltb (a b : root) : bool := Qltb (radicand a) (radicand b).

(** [sqrt s < m] *)
Definition root_lt_num (r : root) (m : Q) : bool :=
  Qltb 0 m && Qltb (radicand r) (m * m).

(** [sqrt s > m] *)
Definition root_gt_num (r : root) (m : Q) : bool :=
  Qltb m 0 || Qltb (m * m) (radicand r).


Definition sum_sq (v : list Q) : Q :=
  foldr (fun x acc => x * x + acc)%Q 0%Q v.

(** The 2-norm of one row. *)
Definition norm (v : list Q) : root := Sqrt (sum_sq v).

(** The distance of two rows of one length (the rows of a matrix). *)
Definition euclidean (p q : list Q) : root := norm (zip_with Qminus p q).

(** ** numpy and scipy *)

Definition root_min (a b : root) : root := if root_ltb b a then b else a.
Definition root_max (a b : root) : root := if root_ltb a b then b else a.

Definition np_min (a : list root) : result root :=
  match a with
  | [] => Raise (ValueError
            "zero-size array to reduction operation minimum which has no identity")
  | x :: rest => Ok (foldl root_min x rest)
  end.

Definition np_max (a : list root) : result root :=
  match a with
  | [] => Raise (ValueError
            "zero-size array to reduction operation maximum which has no identity")
  | x :: rest => Ok (foldl root_max x rest)
  end.

(** [scipy.spatial.distance.pdist]: the distances of the pairs [i < j], row by
    row (the condensed distance matrix). *)
Fixpoint pdist (atoms : list (list Q)) : list root :=
  match atoms with
  | [] => []
  | p :: rest => (euclidean p <$> rest) ++ pdist rest
  end.

(** [np.linalg.norm(atoms, axis=1)].  An empty list makes an array of one
    dimension, which has no axis 1.  The validator calls it on rows of one
    common length only (the dimensionality check comes first), so the array is
    a matrix whenever it has a row. *)
Definition np_linalg_norm_axis1 (atoms : list (list Q)) : result (list root) :=
  match atoms with
  | [] => Raise (AxisError "axis 1 is out of bounds for array of dimension 1")
  | _ => Ok (norm <$> atoms)
  end.

(** ** Channels

    [pulser/channels.py] is not among the sources.  A channel is kept as the
    constructor call that builds it; its [basis] attribute is a parameter of
    whatever reads it. *)

Inductive ChannelClass : Type := Raman | Rydberg.
Inductive Addressing : Type := Global | Local.

Record Channel : Type := {
  channel_class : ChannelClass;
  channel_addressing : Addressing;
  channel_args : list Q
}.

Definition Rydberg_Global (a b : Q) : Channel :=
  {| channel_class := Rydberg; channel_addressing := Global; channel_args := [a; b] |}.
Definition Rydberg_Local (a b c : Q) : Channel :=
  {| channel_class := Rydberg; channel_addressing := Local; channel_args := [a; b; c] |}.
Definition Raman_Local (a b c : Q) : Channel :=
  {| channel_class := Raman; channel_addressing := Local; channel_args := [a; b; c] |}.

(** ** The register *)

Definition dict : Type := list (string * list Q).

Definition values (d : dict) : list (list Q) := snd <$> d.

(** Modelled from the spec: the class [Register] of [pulser/register.py],
    which is not among the sources.  Given a label -> coordinate mapping it
    yields a structure whose [qubits] attribute is that mapping, and fails
    when the vectors are not of one dimensionality or a label is repeated. *)
Record Register : Type := { Register_qubits : dict }.

Definition uniform_dimensionality (d : dict) : bool :=
  match values d with
  | [] => true
  | p :: rest => forallb (fun q => Nat.eqb (length q) (length p)) rest
  end.

Definition Register_new (d : dict) : result Register :=
  if uniform_dimensionality d && bool_decide (NoDup (fst <$> d))
  then Ok {| Register_qubits := d |}
  else Raise (ValueError "The qubits do not make a valid register.").

(** ** The abstract device *)

(** What a child class of [PasqalDevice] has to define. *)
Record PasqalDevice : Type := {
  name : string;
  max_dimensionality : Z;
  max_atom_num : Z;
  max_radial_distance : Q;
  min_atom_distance : Q;
  channels : gmap string Channel
}.

Definition len {A : Type} (l : list A) : Z := Z.of_nat (length l).

Definition too_many_atoms (D : PasqalDevice) : exn :=
  ValueError (format "Too many atoms in the array, accepts at most{} atoms."
                     (str_int (max_atom_num D))).

Definition wrong_dimensionality (D : PasqalDevice) : exn :=
  ValueError (format "All qubit positions must be {}D vectors."
                     (str_int (max_dimensionality D))).

Definition too_close (D : PasqalDevice) : exn :=
  ValueError
    "Qubit positions don't respect the minimal distance between atoms for this device.".

Definition too_far (D : PasqalDevice) : exn :=
  ValueError (format "All qubits must be at most {}um away from the center of the array."
                     (str (max_radial_distance D))).

(** [for pos in atoms: if len(pos) != self.max_dimensionality: raise ...] *)
Fixpoint check_positions (D : PasqalDevice) (atoms : list (list Q)) : result unit :=
  match atoms with
  | [] => Ok tt
  | pos :: rest =>
      raise_if (negb (len pos =? max_dimensionality D)) (wrong_dimensionality D);;
      check_positions D rest
  end.

Definition _check_array (D : PasqalDevice) (atoms : list (list Q)) : result unit :=
  raise_if (len atoms >? max_atom_num D) (too_many_atoms D);;
  check_positions D atoms;;
  (if len atoms >? 1 then
     let distances := pdist atoms in
     m ← np_min distances;
     raise_if (root_lt_num m (min_atom_distance D)) (too_close D)
   else Ok tt);;
  norms ← np_linalg_norm_axis1 atoms;
  m ← np_max norms;
  raise_if (root_gt_num m (max_radial_distance D)) (too_far D).

(** The values a caller may pass to the constructor. *)
Inductive pyobj : Type :=
  | PyNone
  | PyInt (z : Z)
  | PyStr (s : string)
  | PyList (l : list (list Q))
  | PyTuple (l : list (list Q))
  | PyDict (d : dict)
  | PyRegister (r : Register).

Definition isinstance_dict (o : pyobj) : bool :=
  match o with PyDict _ => true | _ => false end.

Definition isinstance_Register (o : pyobj) : bool :=
  match o with PyRegister _ => true | _ => false end.

(** An instance: its class and the attribute [_register]. *)
Record Device : Type := {
  device_class : PasqalDevice;
  _register : Register
}.

(** The [if isinstance ... elif isinstance ... else] head of the constructor. *)
Definition as_register (qubits : pyobj) : result Register :=
  match qubits with
  | PyDict d => Register_new d
  | PyRegister r => Ok r
  | _ => Raise (TypeError
           "The qubits must be a in a dict or Register class instance.")
  end.

Definition __init__ (D : PasqalDevice) (qubits : pyobj) : result Device :=
  register ← as_register qubits;
  _check_array D (values (Register_qubits register));;
  Ok {| device_class := D; _register := register |}.

(** The accessors of an instance. *)
Definition device_name (d : Device) : string := name (device_class d).
Definition device_max_dimensionality (d : Device) : Z :=
  max_dimensionality (device_class d).
Definition device_max_atom_num (d : Device) : Z := max_atom_num (device_class d).
Definition device_max_radial_distance (d : Device) : Q :=
  max_radial_distance (device_class d).
Definition device_min_atom_distance (d : Device) : Q :=
  min_atom_distance (device_class d).
Definition device_channels (d : Device) : gmap string Channel :=
  channels (device_class d).
Definition qubits (d : Device) : dict := Register_qubits (_register d).

(** [{ch.basis for ch in channels.values()}], for the [basis] attribute that
    [pulser/channels.py] gives a channel. *)
Definition bases_of (basis : Channel -> string) (chs : gmap string Channel)
  : gset string :=
  list_to_set (basis <$> (snd <$> map_to_list chs)).

Definition supported_bases (basis : Channel -> string) (D : PasqalDevice)
  : gset string :=
  bases_of basis (channels D).

(** ** Chadoq2 *)

Definition Chadoq2 : PasqalDevice := {|
  name := "Chadoq2";
  max_dimensionality := 2;
  max_atom_num := 100;
  max_radial_distance := 50;
  min_atom_distance := 4;
  channels :=
    <["rydberg_global" := Rydberg_Global 50 2.5]>
    (<["rydberg_local" := Rydberg_Local 50 10 100]>
    (<["rydberg_local2" := Rydberg_Local 50 10 100]>
    (<["raman_local" := Raman_Local 50 10 100]> ∅)))
|}.

(** ** The four rules, as the specification words them *)

Definition capacity_ok (D : PasqalDevice) (atoms : list (list Q)) : Prop :=
  len atoms <= max_atom_num D.

Definition dimensionality_ok (D : PasqalDevice) (atoms : list (list Q)) : Prop :=
  Forall (fun pos => len pos = max_dimensionality D) atoms.

(** Every pair is at least [min_atom_distance] apart. *)
Definition spacing_ok (D : PasqalDevice) (atoms : list (list Q)) : Prop :=
  forall (i j : nat) (p q : list Q),
    (i < j)%nat -> atoms !! i = Some p -> atoms !! j = Some q ->
    root_lt_num (euclidean p q) (min_atom_distance D) = false.

(** Every atom is at most [max_radial_distance] from the origin. *)
Definition radial_ok (D : PasqalDevice) (atoms : list (list Q)) : Prop :=
  Forall (fun pos => root_gt_num (norm pos) (max_radial_distance D) = false) atoms.

(** The rules in the order of the checks, and the error of each. *)
Inductive rule : Type := Capacity | Dimensionality | Spacing | Radial.

Definition rule_ok (D : PasqalDevice) (r : rule) (atoms : list (list Q)) : Prop :=
  match r with
  | Capacity => capacity_ok D atoms
  | Dimensionality => dimensionality_ok D atoms
  | Spacing => spacing_ok D atoms
  | Radial => radial_ok D atoms
  end.

Definition rule_index (r : rule) : nat :=
  match r with
  | Capacity => 0
  | Dimensionality => 1
  | Spacing => 2
  | Radial => 3
  end.

Definition violation (D : PasqalDevice) (r : rule) : exn :=
  match r with
  | Capacity => too_many_atoms D
  | Dimensionality => wrong_dimensionality D
  | Spacing => too_close D
  | Radial => too_far D
  end.

Definition message (e : exn) : string :=
  match e with
  | TypeError msg | ValueError msg | AxisError msg => msg
  end.

(** The message of [e] shows the value [limit]. *)
Definition cites (limit : string) (e : exn) : bool := contains limit (message e).

(** The value of a length as a real number. *)
Definition root_value (r : root) : R := sqrt (Q2R (radicand r)).

(** * Properties *)

(** ** Comparisons of rationals and of lengths *)

Lemma Qltb_lt (a b : Q) : Qltb a b = true <-> (a < b)%Q.
Proof. unfold Qltb, Qlt. apply Z.ltb_lt. Qed.

Lemma Qltb_ge (a b : Q) : Qltb a b = false <-> (b <= a)%Q.
Proof. unfold Qltb, Qle. rewrite Z.ltb_ge. reflexivity. Qed.

Lemma root_lt_num_mono (a b : root) (m : Q) :
  (radicand a <= radicand b)%Q ->
  root_lt_num b m = true -> root_lt_num a m = true.
Proof.
  unfold root_lt_num. intros Hab [H0 Hb]%andb_true_iff.
  apply andb_true_iff. split; [exact H0|].
  apply Qltb_lt. apply Qltb_lt in Hb. eapply Qle_lt_trans; eassumption.
Qed.

Lemma root_gt_num_mono (a b : root) (m : Q) :
  (radicand a <= radicand b)%Q ->
  root_gt_num a m = true -> root_gt_num b m = true.
Proof.
  unfold root_gt_num. intros Hab [H0|Ha]%orb_true_iff; apply orb_true_iff.
  - left. exact H0.
  - right. apply Qltb_lt. apply Qltb_lt in Ha. eapply Qlt_le_trans; eassumption.
Qed.

(** ** [np.min] and [np.max] *)

Lemma foldl_root_min (l : list root) (x : root) :
  foldl root_min x l ∈ x :: l /\
  forall y, y ∈ x :: l -> (radicand (foldl root_min x l) <= radicand y)%Q.
Proof.
  revert x. induction l as [|z l IH]; intros x; simpl.
  - split; [left|]. intros y ->%list_elem_of_singleton. apply Qle_refl.
  - destruct (IH (root_min x z)) as [Hin Hle]. split.
    + apply elem_of_cons in Hin as [->|Hin].
      * unfold root_min. destruct (root_ltb z x); [right; left | left].
      * right. right. exact Hin.
    + intros y Hy.
      assert (Hm : (radicand (root_min x z) <= radicand x)%Q /\
                   (radicand (root_min x z) <= radicand z)%Q).
      { unfold root_min, root_ltb. destruct (Qltb _ _) eqn:E.
        - apply Qltb_lt in E. split; [apply Qlt_le_weak, E | apply Qle_refl].
        - apply Qltb_ge in E. split; [apply Qle_refl | exact E]. }
      destruct Hm as [Hx Hz].
      apply elem_of_cons in Hy as [->|Hy].
      * eapply Qle_trans; [apply Hle; left | exact Hx].
      * apply elem_of_cons in Hy as [->|Hy].
        -- eapply Qle_trans; [apply Hle; left | exact Hz].
        -- apply Hle. right. exact Hy.
Qed.

Lemma foldl_root_max (l : list root) (x : root) :
  foldl root_max x l ∈ x :: l /\
  forall y, y ∈ x :: l -> (radicand y <= radicand (foldl root_max x l))%Q.
Proof.
  revert x. induction l as [|z l IH]; intros x; simpl.
  - split; [left|]. intros y ->%list_elem_of_singleton. apply Qle_refl.
  - destruct (IH (root_max x z)) as [Hin Hle]. split.
    + apply elem_of_cons in Hin as [->|Hin].
      * unfold root_max. destruct (root_ltb x z); [right; left | left].
      * right. right. exact Hin.
    + intros y Hy.
      assert (Hm : (radicand x <= radicand (root_max x z))%Q /\
                   (radicand z <= radicand (root_max x z))%Q).
      { unfold root_max, root_ltb. destruct (Qltb _ _) eqn:E.
        - apply Qltb_lt in E. split; [apply Qlt_le_weak, E | apply Qle_refl].
        - apply Qltb_ge in E. split; [apply Qle_refl | exact E]. }
      destruct Hm as [Hx Hz].
      apply elem_of_cons in Hy as [->|Hy].
      * eapply Qle_trans; [exact Hx | apply Hle; left].
      * apply elem_of_cons in Hy as [->|Hy].
        -- eapply Qle_trans; [exact Hz | apply Hle; left].
        -- apply Hle. right. exact Hy.
Qed.

(** The minimum is below the limit exactly when some entry is. *)
Lemma np_min_lt (x : root) (l : list root) (m : Q) :
  exists r, np_min (x :: l) = Ok r /\
    (root_lt_num r m = true <-> exists y, y ∈ x :: l /\ root_lt_num y m = true).
Proof.
  exists (foldl root_min x l). split; [reflexivity|].
  destruct (foldl_root_min l x) as [Hin Hle]. split.
  - intros H. eauto.
  - intros (y & Hy & H). eapply root_lt_num_mono; [apply Hle, Hy | exact H].
Qed.

(** The maximum is above the limit exactly when some entry is. *)
Lemma np_max_gt (x : root) (l : list root) (m : Q) :
  exists r, np_max (x :: l) = Ok r /\
    (root_gt_num r m = true <-> exists y, y ∈ x :: l /\ root_gt_num y m = true).
Proof.
  exists (foldl root_max x l). split; [reflexivity|].
  destruct (foldl_root_max l x) as [Hin Hle]. split.
  - intros H. eauto.
  - intros (y & Hy & H). eapply root_gt_num_mono; [apply Hle, Hy | exact H].
Qed.

(** ** [pdist] lists the distances of the pairs [i < j] *)

Lemma elem_of_pdist (atoms : list (list Q)) (r : root) :
  r ∈ pdist atoms <->
  exists (i j : nat) (p q : list Q),
    (i < j)%nat /\ atoms !! i = Some p /\ atoms !! j = Some q /\ r = euclidean p q.
Proof.
  induction atoms as [|a rest IH]; simpl.
  - split; [intros H; inversion H|]. intros (i & j & p & q & _ & H & _). discriminate.
  - rewrite elem_of_app, list_elem_of_fmap, IH. split.
    + intros [(q & -> & Hq)|(i & j & p & q & Hij & Hp & Hq & ->)].
      * apply list_elem_of_lookup in Hq as [j Hj].
        exists 0%nat, (S j), a, q. repeat split; [lia | exact Hj].
      * exists (S i), (S j), p, q. repeat split; [lia | exact Hp | exact Hq].
    + intros (i & j & p & q & Hij & Hp & Hq & ->).
      destruct j as [|j]; [lia|]. simpl in Hq.
      destruct i as [|i]; simpl in Hp.
      * left. injection Hp as ->. exists q. split; [reflexivity|].
        apply list_elem_of_lookup. eauto.
      * right. exists i, j, p, q. repeat split; [lia | exact Hp | exact Hq].
Qed.

Lemma pdist_nonempty (atoms : list (list Q)) :
  1 < len atoms -> pdist atoms <> [].
Proof.
  unfold len. destruct atoms as [|p [|q rest]]; simpl; try lia. discriminate.
Qed.

(** ** The dimensionality loop *)

Lemma check_positions_ok (D : PasqalDevice) (atoms : list (list Q)) :
  dimensionality_ok D atoms -> check_positions D atoms = Ok tt.
Proof.
  unfold dimensionality_ok. induction 1 as [|pos rest Hpos _ IH]; simpl; [reflexivity|].
  apply Z.eqb_eq in Hpos. rewrite Hpos. simpl. exact IH.
Qed.

Lemma check_positions_raise (D : PasqalDevice) (atoms : list (list Q)) :
  ~ dimensionality_ok D atoms ->
  check_positions D atoms = Raise (wrong_dimensionality D).
Proof.
  unfold dimensionality_ok. induction atoms as [|pos rest IH]; intros H.
  - destruct H. constructor.
  - simpl. destruct (len pos =? max_dimensionality D) eqn:E; simpl; [|reflexivity].
    apply IH. intros Hrest. apply H. constructor; [apply Z.eqb_eq, E | exact Hrest].
Qed.

(** ** The spacing and the radial step *)

Lemma spacing_ok_short (D : PasqalDevice) (atoms : list (list Q)) :
  len atoms <= 1 -> spacing_ok D atoms.
Proof.
  unfold len. intros Hlen i j p q Hij Hp Hq.
  apply lookup_lt_Some in Hq. lia.
Qed.

Lemma spacing_step (D : PasqalDevice) (atoms : list (list Q)) :
  let step :=
    if len atoms >? 1 then
      m ← np_min (pdist atoms);
      raise_if (root_lt_num m (min_atom_distance D)) (too_close D)
    else Ok tt in
  (spacing_ok D atoms /\ step = Ok tt) \/
  (~ spacing_ok D atoms /\ step = Raise (too_close D)).
Proof.
  intros step. subst step.
  destruct (len atoms >? 1) eqn:Hlen.
  - apply Z.gtb_lt in Hlen.
    destruct (pdist atoms) as [|x l] eqn:Hpd; [apply pdist_nonempty in Hlen; done|].
    destruct (np_min_lt x l (min_atom_distance D)) as (r & -> & Hr). simpl.
    destruct (root_lt_num r (min_atom_distance D)) eqn:Hlt; simpl.
    + right. split; [|reflexivity]. intros Hok.
      destruct Hr as [Hr _]. destruct (Hr eq_refl) as (y & Hy & Hylt).
      rewrite <- Hpd in Hy. apply elem_of_pdist in Hy as (i & j & p & q & Hij & Hp & Hq & ->).
      rewrite (Hok i j p q Hij Hp Hq) in Hylt. discriminate.
    + left. split; [|reflexivity]. intros i j p q Hij Hp Hq.
      destruct (root_lt_num (euclidean p q) (min_atom_distance D)) eqn:E; [|reflexivity].
      destruct Hr as [_ Hr]. symmetry. apply Hr.
      exists (euclidean p q). split; [|exact E].
      rewrite <- Hpd. apply elem_of_pdist. eauto 10.
  - left. split; [|reflexivity]. apply spacing_ok_short.
    rewrite Z.gtb_ltb in Hlen. apply Z.ltb_ge in Hlen. exact Hlen.
Qed.

Lemma radial_step (D : PasqalDevice) (atoms : list (list Q)) :
  atoms <> [] ->
  let step :=
    norms ← np_linalg_norm_axis1 atoms;
    m ← np_max norms;
    raise_if (root_gt_num m (max_radial_distance D)) (too_far D) in
  (radial_ok D atoms /\ step = Ok tt) \/
  (~ radial_ok D atoms /\ step = Raise (too_far D)).
Proof.
  intros Hne step. subst step. unfold radial_ok.
  destruct atoms as [|a rest]; [done|].
  destruct (np_max_gt (norm a) (norm <$> rest) (max_radial_distance D)) as (r & Hmax & Hr).
  change (norm a :: (norm <$> rest)) with (norm <$> (a :: rest)) in *.
  change (np_linalg_norm_axis1 (a :: rest)) with (Ok (norm <$> a :: rest)).
  change (mbind ?k (Ok ?x)) with (k x). cbv beta.
  rewrite Hmax.
  change (mbind ?k (Ok ?x)) with (k x). cbv beta.
  destruct (root_gt_num r (max_radial_distance D)) eqn:Hgt; simpl.
  - right. split; [|reflexivity]. intros Hok.
    destruct Hr as [Hr _]. destruct (Hr eq_refl) as (y & Hy & Hygt).
    apply list_elem_of_fmap in Hy as (pos & -> & Hpos).
    rewrite Forall_forall in Hok. rewrite (Hok pos Hpos) in Hygt. discriminate.
  - left. split; [|reflexivity]. apply Forall_forall. intros pos Hpos.
    destruct (root_gt_num (norm pos) (max_radial_distance D)) eqn:E; [|reflexivity].
    destruct Hr as [_ Hr]. symmetry. apply Hr.
    exists (norm pos). split; [|exact E]. apply list_elem_of_fmap. eauto.
Qed.

(** ** The validator, rule by rule *)

Lemma capacity_ok_gtb (D : PasqalDevice) (atoms : list (list Q)) :
  capacity_ok D atoms <-> (len atoms >? max_atom_num D) = false.
Proof.
  unfold capacity_ok. rewrite Z.gtb_ltb, Z.ltb_ge. reflexivity.
Qed.

Lemma check_array_capacity (D : PasqalDevice) (atoms : list (list Q)) :
  ~ capacity_ok D atoms -> _check_array D atoms = Raise (too_many_atoms D).
Proof.
  intros H. unfold _check_array.
  destruct (len atoms >? max_atom_num D) eqn:E; [reflexivity|].
  apply capacity_ok_gtb in E. contradiction.
Qed.

Lemma check_array_dimensionality (D : PasqalDevice) (atoms : list (list Q)) :
  capacity_ok D atoms -> ~ dimensionality_ok D atoms ->
  _check_array D atoms = Raise (wrong_dimensionality D).
Proof.
  intros Hcap%capacity_ok_gtb Hdim. unfold _check_array.
  rewrite Hcap, (check_positions_raise D atoms Hdim). reflexivity.
Qed.

Lemma check_array_spacing (D : PasqalDevice) (atoms : list (list Q)) :
  capacity_ok D atoms -> dimensionality_ok D atoms -> ~ spacing_ok D atoms ->
  _check_array D atoms = Raise (too_close D).
Proof.
  intros Hcap%capacity_ok_gtb Hdim Hsp. unfold _check_array.
  rewrite Hcap, (check_positions_ok D atoms Hdim). simpl.
  destruct (spacing_step D atoms) as [[Hok _]|[_ Hstep]]; [contradiction|].
  simpl in Hstep. rewrite Hstep. reflexivity.
Qed.

Lemma check_array_radial (D : PasqalDevice) (atoms : list (list Q)) :
  capacity_ok D atoms -> dimensionality_ok D atoms -> spacing_ok D atoms ->
  ~ radial_ok D atoms ->
  _check_array D atoms = Raise (too_far D).
Proof.
  intros Hcap%capacity_ok_gtb Hdim Hsp Hrad. unfold _check_array.
  rewrite Hcap, (check_positions_ok D atoms Hdim). simpl.
  destruct (spacing_step D atoms) as [[_ Hstep]|[Hno _]]; [|contradiction].
  simpl in Hstep. rewrite Hstep. simpl.
  assert (Hne : atoms <> []).
  { intros ->. apply Hrad. constructor. }
  destruct (radial_step D atoms Hne) as [[Hok _]|[_ Hr]]; [contradiction|].
  exact Hr.
Qed.

Lemma check_array_valid (D : PasqalDevice) (atoms : list (list Q)) :
  atoms <> [] ->
  capacity_ok D atoms -> dimensionality_ok D atoms -> spacing_ok D atoms ->
  radial_ok D atoms ->
  _check_array D atoms = Ok tt.
Proof.
  intros Hne Hcap%capacity_ok_gtb Hdim Hsp Hrad. unfold _check_array.
  rewrite Hcap, (check_positions_ok D atoms Hdim). simpl.
  destruct (spacing_step D atoms) as [[_ Hstep]|[Hno _]]; [|contradiction].
  simpl in Hstep. rewrite Hstep. simpl.
  destruct (radial_step D atoms Hne) as [[_ Hr]|[Hno _]]; [|contradiction].
  exact Hr.
Qed.

Lemma check_array_empty (D : PasqalDevice) :
  capacity_ok D [] ->
  _check_array D [] = Raise (AxisError "axis 1 is out of bounds for array of dimension 1").
Proof.
  intros Hcap%capacity_ok_gtb. unfold _check_array. rewrite Hcap. reflexivity.
Qed.

(** ** Lengths as real numbers

    The comparisons through squares decide the comparisons of the square roots
    themselves. *)

Section Lengths_as_reals.

Local Open Scope R_scope.

Lemma Q2R_zero : Q2R 0 = 0.
Proof. unfold Q2R. simpl. lra. Qed.

Lemma sum_sq_nonneg (v : list Q) : (0 <= sum_sq v)%Q.
Proof.
  induction v as [|x v IH]; simpl; [apply Qle_refl|].
  apply Rle_Qle. rewrite Q2R_zero, Q2R_plus, Q2R_mult.
  apply Qle_Rle in IH. rewrite Q2R_zero in IH. nra.
Qed.

Lemma root_value_nonneg (r : root) : 0 <= root_value r.
Proof. apply sqrt_pos. Qed.

Variable r : root.
Variable m : Q.
Hypothesis radicand_nonneg : (0 <= radicand r)%Q.

Let s_nonneg : 0 <= Q2R (radicand r).
Proof. rewrite <- Q2R_zero. apply Qle_Rle, radicand_nonneg. Qed.

Lemma root_lt_num_real : root_lt_num r m = true <-> root_value r < Q2R m.
Proof.
  unfold root_lt_num, root_value. rewrite andb_true_iff, !Qltb_lt. split.
  - intros [H0%Qlt_Rlt Hs%Qlt_Rlt]. rewrite Q2R_zero in H0. rewrite Q2R_mult in Hs.
    rewrite <- (sqrt_square (Q2R m)) by lra.
    apply sqrt_lt_1; [exact s_nonneg | nra | exact Hs].
  - intros H. pose proof (sqrt_pos (Q2R (radicand r))) as Hpos.
    pose proof (sqrt_sqrt _ s_nonneg) as Hsq.
    split; apply Rlt_Qlt; [rewrite Q2R_zero; lra|].
    rewrite Q2R_mult, <- Hsq. nra.
Qed.

Lemma root_gt_num_real : root_gt_num r m = true <-> Q2R m < root_value r.
Proof.
  unfold root_gt_num, root_value. rewrite orb_true_iff, !Qltb_lt.
  pose proof (sqrt_pos (Q2R (radicand r))) as Hpos.
  pose proof (sqrt_sqrt _ s_nonneg) as Hsq. split.
  - intros [H0%Qlt_Rlt|Hs%Qlt_Rlt].
    + rewrite Q2R_zero in H0. lra.
    + rewrite Q2R_mult in Hs. destruct (Rlt_le_dec (Q2R m) 0) as [Hneg|Hnn]; [lra|].
      rewrite <- (sqrt_square (Q2R m)) by lra.
      apply sqrt_lt_1; [nra | exact s_nonneg | exact Hs].
  - intros H. destruct (Rlt_le_dec (Q2R m) 0) as [Hneg|Hnn].
    + left. apply Rlt_Qlt. rewrite Q2R_zero. exact Hneg.
    + right. apply Rlt_Qlt. rewrite Q2R_mult, <- Hsq. nra.
Qed.


Lemma root_lt_num_false_real : root_lt_num r m = false <-> Q2R m <= root_value r.
Proof.
  rewrite <- not_true_iff_false, root_lt_num_real. split; lra.
Qed.

Lemma root_gt_num_false_real : root_gt_num r m = false <-> root_value r <= Q2R m.
Proof.
  rewrite <- not_true_iff_false, root_gt_num_real. split; lra.
Qed.

End Lengths_as_reals.

Lemma norm_nonneg (v : list Q) : (0 <= radicand (norm v))%Q.
Proof. apply sum_sq_nonneg. Qed.

Lemma euclidean_nonneg (p q : list Q) : (0 <= radicand (euclidean p q))%Q.
Proof. apply sum_sq_nonneg. Qed.

(** Every pair is at least [min_atom_distance] apart, on the reals. *)
Lemma spacing_ok_real (D : PasqalDevice) (atoms : list (list Q)) :
  spacing_ok D atoms <->
  forall (i j : nat) (p q : list Q),
    (i < j)%nat -> atoms !! i = Some p -> atoms !! j = Some q ->
    (Q2R (min_atom_distance D) <= root_value (euclidean p q))%R.
Proof.
  unfold spacing_ok. split; intros H i j p q Hij Hp Hq.
  - apply root_lt_num_false_real; [apply euclidean_nonneg | eauto].
  - apply root_lt_num_false_real; [apply euclidean_nonneg | eauto].
Qed.

(** Every atom is at most [max_radial_distance] from the origin, on the reals. *)
Lemma radial_ok_real (D : PasqalDevice) (atoms : list (list Q)) :
  radial_ok D atoms <->
  Forall (fun pos => (root_value (norm pos) <= Q2R (max_radial_distance D))%R) atoms.
Proof.
  unfold radial_ok. apply Forall_proper; [|reflexivity].
  intros pos. apply root_gt_num_false_real, norm_nonneg.
Qed.

(** ** The errors of the four rules *)



(** ** The order of the checks *)



(** ** Capacity *)

(** C5: an atom list longer than [max_atom_num] (so one of
    [max_atom_num + 1] atoms) makes the validator raise the capacity error,
    whatever the positions and their dimensionality are, and so does the
    construction of a device on a register of that many qubits. *)
Theorem too_many_atoms_whatever_the_positions
    (D : PasqalDevice) (atoms : list (list Q)) :
  max_atom_num D < len atoms ->
  _check_array D atoms = Raise (too_many_atoms D) /\
  (forall (qubits : pyobj) (register : Register),
     as_register qubits = Ok register ->
     values (Register_qubits register) = atoms ->
     __init__ D qubits = Raise (too_many_atoms D)).
Proof.
  intros Hlen.
  assert (Hres : _check_array D atoms = Raise (too_many_atoms D)).
  { apply check_array_capacity. unfold capacity_ok. lia. }
  split; [exact Hres|].
  intros qubits register Hreg Hval. unfold __init__.
  rewrite Hreg. simpl. rewrite Hval, Hres. reflexivity.
Qed.

(** 101 atoms for Chadoq2, all at one place and in 3D. *)
Lemma too_many_atoms_whatever_the_positions_witness :
  max_atom_num Chadoq2 < len (replicate 101 [7; 7; 7]%Q) /\
  _check_array Chadoq2 (replicate 101 [7; 7; 7]%Q) = Raise (too_many_atoms Chadoq2).
Proof.
  assert (H : max_atom_num Chadoq2 < len (replicate 101 [7; 7; 7]%Q))
    by (vm_compute; reflexivity).
  split; [exact H|].
  apply (too_many_atoms_whatever_the_positions Chadoq2 _ H).
Defined.

(** ** The type of the argument *)

(** C6: an argument that is neither a dict nor a [Register] fails at the head
    of the constructor with the [TypeError], for every device: no register is
    made, so the validator is not reached and no limit of the device takes
    part in the outcome. *)
Theorem init_rejects_other_types (D : PasqalDevice) (qubits : pyobj) :
  isinstance_dict qubits = false ->
  isinstance_Register qubits = false ->
  as_register qubits
    = Raise (TypeError "The qubits must be a in a dict or Register class instance.") /\
  __init__ D qubits
    = Raise (TypeError "The qubits must be a in a dict or Register class instance.").
Proof.
  intros Hd Hr. destruct qubits; try discriminate; split; reflexivity.
Qed.

(** A list of positions is not a dict. *)
Lemma init_rejects_other_types_witness :
  __init__ Chadoq2 (PyList [[0; 0]; [4; 0]]%Q)
    = Raise (TypeError "The qubits must be a in a dict or Register class instance.").
Proof.
  apply (init_rejects_other_types Chadoq2 (PyList [[0; 0]; [4; 0]]%Q)); reflexivity.
Defined.

(** ** Construction *)

Lemma init_on_register (D : PasqalDevice) (qubits : pyobj) (register : Register) :
  as_register qubits = Ok register ->
  __init__ D qubits =
    (_check_array D (values (Register_qubits register));;
     Ok {| device_class := D; _register := register |}).
Proof. intros H. unfold __init__. rewrite H. reflexivity. Qed.

Lemma init_class (D : PasqalDevice) (qubits : pyobj) (d : Device) :
  __init__ D qubits = Ok d -> device_class d = D.
Proof.
  unfold __init__. destruct (as_register qubits) as [register|e]; simpl; [|discriminate].
  destruct (_check_array D _) as [[]|e]; simpl; [|discriminate].
  intros [= <-]. reflexivity.
Qed.


(** ** The empty array *)

(** C2: the empty atom list does not pass the validator.  Capacity,
    dimensionality and spacing let it through, but the radial step takes the
    norms along axis 1 of an array that has one dimension only, and numpy
    raises; the construction of a device from an empty dict, or from a
    register without qubits, fails with it. *)
Theorem check_array_empty_raises (D : PasqalDevice) :
  0 <= max_atom_num D ->
  _check_array D []
    = Raise (AxisError "axis 1 is out of bounds for array of dimension 1") /\
  __init__ D (PyDict [])
    = Raise (AxisError "axis 1 is out of bounds for array of dimension 1") /\
  __init__ D (PyRegister {| Register_qubits := [] |})
    = Raise (AxisError "axis 1 is out of bounds for array of dimension 1").
Proof.
  intros H.
  assert (Hres : _check_array D []
            = Raise (AxisError "axis 1 is out of bounds for array of dimension 1")).
  { apply check_array_empty. unfold capacity_ok, len. simpl. exact H. }
  split; [exact Hres|]. split.
  - rewrite (init_on_register D (PyDict []) {| Register_qubits := [] |} eq_refl).
    simpl. unfold values. simpl. rewrite Hres. reflexivity.
  - rewrite (init_on_register D (PyRegister {| Register_qubits := [] |})
               {| Register_qubits := [] |} eq_refl).
    simpl. unfold values. simpl. rewrite Hres. reflexivity.
Qed.

Lemma check_array_empty_raises_witness :
  capacity_ok Chadoq2 [] /\ dimensionality_ok Chadoq2 [] /\
  _check_array Chadoq2 []
    = Raise (AxisError "axis 1 is out of bounds for array of dimension 1").
Proof.
  split; [vm_compute; discriminate|]. split; [constructor|].
  apply (check_array_empty_raises Chadoq2). vm_compute. discriminate.
Defined.

(** ** Minimum spacing *)




(** ** Radial bound *)




(** ** The constants of Chadoq2 *)

(** C10: whatever a Chadoq2 device was constructed from, its accessors
    return the name "Chadoq2", the dimensionality 2, at most 100 atoms, the
    radial bound 50 and the minimal distance 4. *)
Theorem Chadoq2_constants (qubits : pyobj) (d : Device) :
  __init__ Chadoq2 qubits = Ok d ->
  device_name d = "Chadoq2" /\
  device_max_dimensionality d = 2 /\
  device_max_atom_num d = 100 /\
  device_max_radial_distance d = 50%Q /\
  device_min_atom_distance d = 4%Q.
Proof.
  intros Hd%init_class.
  unfold device_name, device_max_dimensionality, device_max_atom_num,
    device_max_radial_distance, device_min_atom_distance.
  rewrite Hd. repeat split.
Qed.

Lemma Chadoq2_constants_witness :
  exists d,
    __init__ Chadoq2 (PyDict [("q0", [0; 0]); ("q1", [4; 0])]%Q) = Ok d /\
    device_name d = "Chadoq2" /\
    device_max_dimensionality d = 2 /\
    device_max_atom_num d = 100 /\
    device_max_radial_distance d = 50%Q /\
    device_min_atom_distance d = 4%Q.
Proof.
  eexists. split; [vm_compute; reflexivity|].
  apply (Chadoq2_constants (PyDict [("q0", [0; 0]); ("q1", [4; 0])]%Q)).
  vm_compute. reflexivity.
Defined.

(** ** Supported bases *)

Lemma elem_of_bases_of (basis : Channel -> string) (chs : gmap string Channel)
    (b : string) :
  b ∈ bases_of basis chs <-> exists key ch, chs !! key = Some ch /\ basis ch = b.
Proof.
  unfold bases_of. rewrite elem_of_list_to_set, list_elem_of_fmap. split.
  - intros (ch & -> & ([key ch'] & -> & Hin)%list_elem_of_fmap).
    apply elem_of_map_to_list in Hin. eauto.
  - intros (key & ch & Hlook & <-). exists ch. split; [reflexivity|].
    apply list_elem_of_fmap. exists (key, ch). split; [reflexivity|].
    apply elem_of_map_to_list, Hlook.
Qed.

Lemma size_list_to_set_le (l : list string) :
  (size (list_to_set l : gset string) <= length l)%nat.
Proof.
  induction l as [|x l IH].
  - rewrite list_to_set_nil, size_empty. reflexivity.
  - rewrite list_to_set_cons, size_union_alt, size_singleton. simpl.
    assert (Hsub : (size (list_to_set l ∖ {[x]} : gset string)
                    <= size (list_to_set l : gset string))%nat).
    { apply subseteq_size. intros y [Hy _]%elem_of_difference. exact Hy. }
    lia.
Qed.

Lemma size_bases_of_le (basis : Channel -> string) (chs : gmap string Channel) :
  (size (bases_of basis chs) <= size chs)%nat.
Proof.
  unfold bases_of. etransitivity; [apply size_list_to_set_le|].
  rewrite !length_fmap, length_map_to_list. reflexivity.
Qed.

(** An entry whose basis another entry has adds nothing to the set. *)
Lemma bases_of_insert_duplicate (basis : Channel -> string)
    (chs : gmap string Channel) (key other : string) (ch ch' : Channel) :
  chs !! key = None -> chs !! other = Some ch' -> basis ch' = basis ch ->
  bases_of basis (<[key := ch]> chs) = bases_of basis chs.
Proof.
  intros Hkey Hother Hb. apply set_eq. intros b. rewrite !elem_of_bases_of. split.
  - intros (k & c & Hlook & <-). rewrite lookup_insert in Hlook. case_decide.
    + injection Hlook as <-. exists other, ch'. split; [exact Hother | exact Hb].
    + eauto.
  - intros (k & c & Hlook & <-). exists k, c. split; [|reflexivity].
    rewrite lookup_insert. case_decide; [congruence | exact Hlook].
Qed.

(** Two entries of one basis: fewer bases than channels. *)
Lemma size_bases_of_duplicate (basis : Channel -> string)
    (chs : gmap string Channel) (k1 k2 : string) (c1 c2 : Channel) :
  k1 <> k2 -> chs !! k1 = Some c1 -> chs !! k2 = Some c2 -> basis c1 = basis c2 ->
  (size (bases_of basis chs) < size chs)%nat.
Proof.
  intros Hne H1 H2 Hb.
  rewrite <- (insert_delete_id chs k1 c1 H1).
  rewrite (bases_of_insert_duplicate basis (delete k1 chs) k1 k2 c1 c2).
  - rewrite map_size_insert_None by apply lookup_delete_eq.
    pose proof (size_bases_of_le basis (delete k1 chs)). lia.
  - apply lookup_delete_eq.
  - rewrite lookup_delete_ne by exact Hne. exact H2.
  - symmetry. exact Hb.
Qed.

(** C7: for every device, [supported_bases] is the set of the [basis]
    values of its channels: a basis is in it exactly when some channel has it.
    A channel added under a new name with a basis that is already there
    leaves the set, and so its cardinality, unchanged; two entries of one
    basis make the set smaller than the number of channels.  Chadoq2's
    'rydberg_local' and 'rydberg_local2' are one and the same channel
    description, and Chadoq2 has four channels but at most three bases. *)
Theorem supported_bases_distinct (basis : Channel -> string) :
  (forall D b,
     b ∈ supported_bases basis D <->
     exists key ch, channels D !! key = Some ch /\ basis ch = b) /\
  (forall D D' key other ch ch',
     channels D !! key = None -> channels D !! other = Some ch' ->
     basis ch' = basis ch ->
     channels D' = <[key := ch]> (channels D) ->
     supported_bases basis D' = supported_bases basis D /\
     size (supported_bases basis D') = size (supported_bases basis D)) /\
  (forall D k1 k2 c1 c2,
     k1 <> k2 -> channels D !! k1 = Some c1 -> channels D !! k2 = Some c2 ->
     basis c1 = basis c2 ->
     (size (supported_bases basis D) < size (channels D))%nat) /\
  channels Chadoq2 !! "rydberg_local" = Some (Rydberg_Local 50 10 100) /\
  channels Chadoq2 !! "rydberg_local2" = Some (Rydberg_Local 50 10 100) /\
  size (channels Chadoq2) = 4%nat /\
  (size (supported_bases basis Chadoq2) <= 3)%nat.
Proof.
  assert (H1 : channels Chadoq2 !! "rydberg_local" = Some (Rydberg_Local 50 10 100))
    by reflexivity.
  assert (H2 : channels Chadoq2 !! "rydberg_local2" = Some (Rydberg_Local 50 10 100))
    by reflexivity.
  assert (H4 : size (channels Chadoq2) = 4%nat) by reflexivity.
  split; [intros D b; apply elem_of_bases_of|].
  split.
  { intros D D' key other ch ch' Hkey Hother Hb HD'. unfold supported_bases.
    rewrite HD', (bases_of_insert_duplicate basis _ key other ch ch' Hkey Hother Hb).
    split; reflexivity. }
  split.
  { intros D k1 k2 c1 c2. unfold supported_bases. apply size_bases_of_duplicate. }
  split; [exact H1|]. split; [exact H2|]. split; [exact H4|].
  assert (size (supported_bases basis Chadoq2) < size (channels Chadoq2))%nat.
  { apply (size_bases_of_duplicate basis _ "rydberg_local" "rydberg_local2"
             (Rydberg_Local 50 10 100) (Rydberg_Local 50 10 100));
      [discriminate | exact H1 | exact H2 | reflexivity]. }
  lia.
Qed.

(** With a basis per channel class: Chadoq2 supports two bases. *)
Lemma supported_bases_distinct_witness :
  let basis := fun ch => match channel_class ch with
                         | Rydberg => "ground-rydberg"
                         | Raman => "digital"
                         end in
  (size (supported_bases basis Chadoq2) < size (channels Chadoq2))%nat /\
  supported_bases basis Chadoq2 = {[ "ground-rydberg"; "digital" ]}.
Proof.
  intros basis. split.
  - refine (proj1 (proj2 (proj2 (supported_bases_distinct basis)))
              Chadoq2 "rydberg_local" "rydberg_local2" _ _ _ eq_refl eq_refl eq_refl).
    discriminate.
  - apply set_eq. intros b.
    rewrite (proj1 (supported_bases_distinct basis) Chadoq2 b). split.
    + intros (key & ch & Hlook & <-). unfold Chadoq2 in Hlook. simpl in Hlook.
      repeat (rewrite lookup_insert in Hlook; case_decide;
              [injection Hlook as <-; set_solver|]).
      rewrite lookup_empty in Hlook. discriminate.
    + intros [->%elem_of_singleton| ->%elem_of_singleton]%elem_of_union.
      * exists "rydberg_local", (Rydberg_Local 50 10 100). split; reflexivity.
      * exists "raman_local", (Raman_Local 50 10 100). split; reflexivity.
Defined.

(** ** What the messages show *)

Lemma contains_cons (needle : string) (c : ascii) (s : string) :
  contains needle (String c s) = String.prefix needle (String c s) || contains needle s.
Proof. reflexivity. Qed.

Lemma prefix_append (needle s : string) : String.prefix needle (needle +:+ s) = true.
Proof.
  induction needle as [|c needle IH]; simpl.
  - destruct s; reflexivity.
  - destruct (Ascii.ascii_dec c c); [exact IH | contradiction].
Qed.

Lemma contains_here (needle s : string) : contains needle (needle +:+ s) = true.
Proof.
  assert (Hunfold : forall h, String.prefix needle h = true ->
            contains needle h = true).
  { intros h Hp. destruct h as [|c h].
    - change (contains needle EmptyString)
        with (String.prefix needle EmptyString || false).
      rewrite Hp. reflexivity.
    - rewrite contains_cons, Hp. reflexivity. }
  apply Hunfold, prefix_append.
Qed.

Lemma contains_skip (needle : string) (c : ascii) (s : string) :
  contains needle s = true -> contains needle (String c s) = true.
Proof. intros H. rewrite contains_cons, H. apply orb_true_r. Qed.

(** C8, the spacing message: Chadoq2 rejects two atoms 3.9um apart with the
    spacing error, and its message does not show the limit 4. *)
Lemma too_close_cites_no_limit :
  __init__ Chadoq2 (PyDict [("q0", [0; 0]); ("q1", [3.9; 0])]%Q)
    = Raise (too_close Chadoq2) /\
  str (min_atom_distance Chadoq2) = "4" /\
  cites (str (min_atom_distance Chadoq2)) (too_close Chadoq2) = false.
Proof. vm_compute. repeat split. Qed.

(** C8, amended: the messages of the capacity, the dimensionality and the
    radial error show the violated limit ([max_atom_num],
    [max_dimensionality], [max_radial_distance]); the message of the spacing
    error is one fixed text for every device, which names no value.  Chadoq2
    rejects two atoms 3.9um apart with that spacing error, and an atom at
    (51,0) with a radial error that shows 50. *)
Theorem messages_cite_limits (D : PasqalDevice) :
  cites (str_int (max_atom_num D)) (violation D Capacity) = true /\
  cites (str_int (max_dimensionality D)) (violation D Dimensionality) = true /\
  cites (str (max_radial_distance D)) (violation D Radial) = true /\
  message (violation D Spacing)
    = "Qubit positions don't respect the minimal distance between atoms for this device." /\
  __init__ Chadoq2 (PyDict [("q0", [0; 0]); ("q1", [3.9; 0])]%Q)
    = Raise (violation Chadoq2 Spacing) /\
  __init__ Chadoq2 (PyDict [("q0", [51; 0])]%Q) = Raise (violation Chadoq2 Radial) /\
  message (violation Chadoq2 Radial)
    = "All qubits must be at most 50um away from the center of the array.".
Proof.
  split; [|split; [|split]].
  - unfold cites, violation, too_many_atoms, message. cbn [format].
    repeat apply contains_skip. apply contains_here.
  - unfold cites, violation, wrong_dimensionality, message. cbn [format].
    repeat apply contains_skip. apply contains_here.
  - unfold cites, violation, too_far, message. cbn [format].
    repeat apply contains_skip. apply contains_here.
  - vm_compute. repeat split.
Qed.

(** * The validator as a decision procedure *)

(** ** Each rule holds or fails *)

Lemma capacity_ok_dec (D : PasqalDevice) (atoms : list (list Q)) :
  capacity_ok D atoms \/ ~ capacity_ok D atoms.
Proof. unfold capacity_ok. lia. Qed.

Lemma dimensionality_ok_dec (D : PasqalDevice) (atoms : list (list Q)) :
  dimensionality_ok D atoms \/ ~ dimensionality_ok D atoms.
Proof.
  unfold dimensionality_ok.
  destruct (decide (Forall (fun pos => len pos = max_dimensionality D) atoms));
    [left | right]; assumption.
Qed.

Lemma spacing_ok_dec (D : PasqalDevice) (atoms : list (list Q)) :
  spacing_ok D atoms \/ ~ spacing_ok D atoms.
Proof.
  destruct (spacing_step D atoms) as [[H _]|[H _]]; [left | right]; exact H.
Qed.

Lemma radial_ok_dec (D : PasqalDevice) (atoms : list (list Q)) :
  radial_ok D atoms \/ ~ radial_ok D atoms.
Proof.
  destruct atoms as [|a rest]; [left; constructor|].
  destruct (radial_step D (a :: rest)) as [[H _]|[H _]];
    [discriminate | left | right]; exact H.
Qed.

(** The forward direction, for any rule. *)
Lemma check_array_violation (D : PasqalDevice) (atoms : list (list Q)) (r : rule) :
  ~ rule_ok D r atoms ->
  (forall r', (rule_index r' < rule_index r)%nat -> rule_ok D r' atoms) ->
  _check_array D atoms = Raise (violation D r).
Proof.
  intros Hbad Hbefore.
  assert (Hcap : r <> Capacity -> capacity_ok D atoms).
  { intros Hr. apply (Hbefore Capacity). destruct r; simpl; [congruence | lia..]. }
  destruct r; simpl in Hbad |- *.
  - apply check_array_capacity, Hbad.
  - apply check_array_dimensionality; [apply Hcap; discriminate | exact Hbad].
  - apply check_array_spacing; [apply Hcap; discriminate | | exact Hbad].
    apply (Hbefore Dimensionality). simpl. lia.
  - apply check_array_radial; [apply Hcap; discriminate | | | exact Hbad].
    + apply (Hbefore Dimensionality). simpl. lia.
    + apply (Hbefore Spacing). simpl. lia.
Qed.

(** The first rule that fails, if one does. *)
Lemma first_violation_or_valid (D : PasqalDevice) (atoms : list (list Q)) :
  (capacity_ok D atoms /\ dimensionality_ok D atoms /\
   spacing_ok D atoms /\ radial_ok D atoms) \/
  exists r, ~ rule_ok D r atoms /\
    forall r', (rule_index r' < rule_index r)%nat -> rule_ok D r' atoms.
Proof.
  destruct (capacity_ok_dec D atoms) as [Hcap|Hcap].
  2:{ right. exists Capacity. split; [exact Hcap|]. intros r'. simpl. lia. }
  destruct (dimensionality_ok_dec D atoms) as [Hdim|Hdim].
  2:{ right. exists Dimensionality. split; [exact Hdim|].
      intros [] Hr'; simpl in Hr'; try lia. exact Hcap. }
  destruct (spacing_ok_dec D atoms) as [Hsp|Hsp].
  2:{ right. exists Spacing. split; [exact Hsp|].
      intros [] Hr'; simpl in Hr'; try lia; assumption. }
  destruct (radial_ok_dec D atoms) as [Hrad|Hrad].
  2:{ right. exists Radial. split; [exact Hrad|].
      intros [] Hr'; simpl in Hr'; try lia; assumption. }
  left. auto.
Qed.

(** Every outcome of the validator, with the input that gives it. *)
Lemma check_array_outcome (D : PasqalDevice) (atoms : list (list Q)) :
  (_check_array D atoms = Ok tt /\ atoms <> [] /\
   capacity_ok D atoms /\ dimensionality_ok D atoms /\
   spacing_ok D atoms /\ radial_ok D atoms) \/
  (_check_array D atoms
     = Raise (AxisError "axis 1 is out of bounds for array of dimension 1") /\
   atoms = [] /\ capacity_ok D atoms) \/
  (exists r, _check_array D atoms = Raise (violation D r) /\
     ~ rule_ok D r atoms /\
     forall r', (rule_index r' < rule_index r)%nat -> rule_ok D r' atoms).
Proof.
  destruct (first_violation_or_valid D atoms) as [(Hcap & Hdim & Hsp & Hrad)|(r & Hbad & Hbefore)].
  - destruct atoms as [|a rest].
    + right. left. split; [apply check_array_empty, Hcap|]. split; [reflexivity | exact Hcap].
    + left. split; [apply check_array_valid; [discriminate | assumption..]|].
      split; [discriminate|]. auto.
  - right. right. exists r. split; [apply check_array_violation; assumption|].
    split; assumption.
Qed.

Lemma check_array_ok_inv (D : PasqalDevice) (atoms : list (list Q)) :
  _check_array D atoms = Ok tt ->
  atoms <> [] /\ capacity_ok D atoms /\ dimensionality_ok D atoms /\
  spacing_ok D atoms /\ radial_ok D atoms.
Proof.
  intros Hok.
  destruct (check_array_outcome D atoms) as [(_ & H)|[(Hres & _)|(r & Hres & _)]].
  - exact H.
  - rewrite Hres in Hok. discriminate.
  - rewrite Hres in Hok. discriminate.
Qed.




(** * Constructed devices *)






(** * The order and the number of the atoms *)

Lemma Qltb_proper_l (a b c : Q) : (a == b)%Q -> Qltb a c = Qltb b c.
Proof.
  intros Hab. destruct (Qltb a c) eqn:E1, (Qltb b c) eqn:E2; try reflexivity.
  - apply Qltb_lt in E1. apply Qltb_ge in E2. rewrite Hab in E1.
    exfalso. exact (Qlt_not_le _ _ E1 E2).
  - apply Qltb_ge in E1. apply Qltb_lt in E2. rewrite Hab in E1.
    exfalso. exact (Qlt_not_le _ _ E2 E1).
Qed.

Lemma sum_sq_zip_sym (p q : list Q) :
  (sum_sq (zip_with Qminus p q) == sum_sq (zip_with Qminus q p))%Q.
Proof.
  revert q. induction p as [|x p IH]; intros [|y q]; simpl; try reflexivity.
  rewrite (IH q). ring.
Qed.

(** The distance of two atoms does not depend on which comes first. *)
Lemma euclidean_sym_lt (p q : list Q) (m : Q) :
  root_lt_num (euclidean p q) m = root_lt_num (euclidean q p) m.
Proof.
  unfold root_lt_num, euclidean, norm. simpl.
  rewrite (Qltb_proper_l _ _ (m * m) (sum_sq_zip_sym p q)). reflexivity.
Qed.

Lemma spacing_ok_pdist (D : PasqalDevice) (atoms : list (list Q)) :
  spacing_ok D atoms <->
  Forall (fun r => root_lt_num r (min_atom_distance D) = false) (pdist atoms).
Proof.
  rewrite Forall_forall. unfold spacing_ok. split.
  - intros H r (i & j & p & q & Hij & Hp & Hq & ->)%elem_of_pdist. eauto.
  - intros H i j p q Hij Hp Hq. apply H. apply elem_of_pdist. eauto 10.
Qed.

Lemma pdist_Forall_submseteq (m : Q) (l1 l2 : list (list Q)) :
  l1 ⊆+ l2 ->
  Forall (fun r => root_lt_num r m = false) (pdist l2) ->
  Forall (fun r => root_lt_num r m = false) (pdist l1).
Proof.
  induction 1 as [|x l1 l2 Hsub IH|x y l|x l1 l2 Hsub IH|l1 l2 l3 _ IH1 _ IH2]; simpl.
  - intros H. exact H.
  - rewrite !Forall_app, !Forall_fmap. intros [Hx Hrest]. split; [|apply IH, Hrest].
    rewrite Forall_forall in Hx |- *. intros q Hq.
    apply Hx. eapply elem_of_submseteq; eassumption.
  - rewrite !Forall_cons, !Forall_app. intros (Hxy & Hx & Hy & Hl).
    rewrite <- euclidean_sym_lt. auto.
  - rewrite Forall_app. intros [_ Hrest]. apply IH, Hrest.
  - intros H. apply IH1, IH2, H.
Qed.

(** A rule that holds of an array holds of what is left when atoms are
    removed or reordered. *)
Lemma rule_ok_submseteq (D : PasqalDevice) (r : rule) (l1 l2 : list (list Q)) :
  l1 ⊆+ l2 -> rule_ok D r l2 -> rule_ok D r l1.
Proof.
  intros Hsub. destruct r; simpl.
  - unfold capacity_ok, len. apply submseteq_length in Hsub. lia.
  - unfold dimensionality_ok. rewrite !Forall_forall. intros H pos Hpos.
    apply H. eapply elem_of_submseteq; eassumption.
  - rewrite !spacing_ok_pdist. apply pdist_Forall_submseteq, Hsub.
  - unfold radial_ok. rewrite !Forall_forall. intros H pos Hpos.
    apply H. eapply elem_of_submseteq; eassumption.
Qed.

(** X5: the outcome of the validator, the error included, does not depend
    on the order of the atoms. *)
Theorem check_array_permutation (D : PasqalDevice) (atoms atoms' : list (list Q)) :
  atoms ≡ₚ atoms' ->
  _check_array D atoms = _check_array D atoms'.
Proof.
  intros Hperm.
  assert (Hto : forall r, rule_ok D r atoms -> rule_ok D r atoms').
  { intros r. apply rule_ok_submseteq, Permutation_submseteq. symmetry. exact Hperm. }
  assert (Hfrom : forall r, rule_ok D r atoms' -> rule_ok D r atoms).
  { intros r. apply rule_ok_submseteq, Permutation_submseteq, Hperm. }
  destruct (check_array_outcome D atoms)
    as [(Hres & Hne & Hcap & Hdim & Hsp & Hrad)|[(Hres & -> & Hcap)|(r & Hres & Hbad & Hbefore)]];
    rewrite Hres; symmetry.
  - apply check_array_valid.
    + intros ->. symmetry in Hperm. apply Permutation_nil in Hperm. contradiction.
    + apply (Hto Capacity), Hcap.
    + apply (Hto Dimensionality), Hdim.
    + apply (Hto Spacing), Hsp.
    + apply (Hto Radial), Hrad.
  - apply Permutation_nil in Hperm. subst atoms'. apply check_array_empty, Hcap.
  - apply check_array_violation.
    + intros H. apply Hbad, Hfrom, H.
    + intros r' Hr'. apply Hto, Hbefore, Hr'.
Qed.

Lemma check_array_permutation_witness :
  _check_array Chadoq2 [[0; 0]; [4; 0]; [60; 0]]%Q
  = _check_array Chadoq2 [[60; 0]; [0; 0]; [4; 0]]%Q.
Proof.
  apply (check_array_permutation Chadoq2).
  change ([[0; 0]; [4; 0]] ++ [[60; 0]] ≡ₚ [[60; 0]] ++ [[0; 0]; [4; 0]])%Q.
  apply Permutation_app_comm.
Defined.



(** * The limits of the device *)

(** X7: what one device accepts, every device accepts that takes the same
    dimensionality, at least as many atoms, a minimal distance that is not
    larger and a radial distance that is not smaller. *)
Theorem check_array_wider_limits (D D' : PasqalDevice) (atoms : list (list Q)) :
  max_dimensionality D' = max_dimensionality D ->
  max_atom_num D <= max_atom_num D' ->
  (min_atom_distance D' <= min_atom_distance D)%Q ->
  (max_radial_distance D <= max_radial_distance D')%Q ->
  _check_array D atoms = Ok tt ->
  _check_array D' atoms = Ok tt.
Proof.
  intros Hd Hn Hmin%Qle_Rle Hmax%Qle_Rle (Hne & Hcap & Hdim & Hsp & Hrad)%check_array_ok_inv.
  apply check_array_valid; [exact Hne|..].
  - unfold capacity_ok in *. lia.
  - unfold dimensionality_ok in *. rewrite Hd. exact Hdim.
  - rewrite spacing_ok_real in Hsp. apply spacing_ok_real.
    intros i j p q Hij Hp Hq. specialize (Hsp i j p q Hij Hp Hq). lra.
  - rewrite radial_ok_real in Hrad. apply radial_ok_real.
    eapply Forall_impl; [exact Hrad|]. intros pos Hpos. simpl in Hpos. lra.
Qed.

(** Three atoms 4um apart pass Chadoq2, so they pass a device of 200 atoms,
    3um and 60um. *)
Lemma check_array_wider_limits_witness :
  _check_array
    {| name := "wider"; max_dimensionality := 2; max_atom_num := 200;
       max_radial_distance := 60; min_atom_distance := 3; channels := ∅ |}
    [[0; 0]; [4; 0]; [8; 0]]%Q = Ok tt.
Proof.
  apply (check_array_wider_limits Chadoq2); try reflexivity; vm_compute; discriminate.
Defined.



(** * One atom, and two atoms at one place *)






(** * Bases and channels *)

(** X11: a device has no supported basis exactly when it has no channel. *)
Theorem supported_bases_empty_iff (basis : Channel -> string) (D : PasqalDevice) :
  supported_bases basis D = ∅ <-> channels D = ∅.
Proof.
  unfold supported_bases. split.
  - intros Hempty. apply map_empty. intros key.
    destruct (channels D !! key) as [ch|] eqn:Hlook; [|reflexivity].
    assert (Hin : basis ch ∈ bases_of basis (channels D)).
    { apply elem_of_bases_of. eauto. }
    rewrite Hempty in Hin. apply not_elem_of_empty in Hin. contradiction.
  - intros ->. apply set_eq. intros b. rewrite elem_of_bases_of. split.
    + intros (key & ch & Hlook & _). rewrite lookup_empty in Hlook. discriminate.
    + intros H. apply not_elem_of_empty in H. contradiction.
Qed.

(** X12: a device that has every channel of another one, under the same
    names, supports every basis that the other one supports. *)
Theorem supported_bases_mono (basis : Channel -> string) (D D' : PasqalDevice) :
  channels D ⊆ channels D' ->
  supported_bases basis D ⊆ supported_bases basis D'.
Proof.
  intros Hsub b. unfold supported_bases. rewrite !elem_of_bases_of.
  intros (key & ch & Hlook & Hb). exists key, ch. split; [|exact Hb].
  eapply lookup_weaken; eassumption.
Qed.

(** A device with the Raman channel of Chadoq2 alone. *)
Lemma supported_bases_mono_witness :
  let basis := fun ch => match channel_class ch with
                         | Rydberg => "ground-rydberg"
                         | Raman => "digital"
                         end in
  supported_bases basis
    {| name := "raman"; max_dimensionality := 2; max_atom_num := 100;
       max_radial_distance := 50; min_atom_distance := 4;
       channels := {[ "raman_local" := Raman_Local 50 10 100 ]} |}
  ⊆ supported_bases basis Chadoq2.
Proof.
  intros basis. apply (supported_bases_mono basis). simpl.
  apply map_subseteq_spec. intros key ch Hlook.
  apply lookup_singleton_Some in Hlook as [<- <-]. reflexivity.
Defined.
